(** * AHT10 driver for the STM32F030: conversion and formatting, verified

    A shallow embedding of [STM32F030-CMSIS-AHT10-lib.c]:
    - the sensor protocol driver ([AHT10_init], [AHT10_readSensorData]), as
      programs of a small state monad that logs every call made to the I2C
      transport and to the delay routine;
    - the raw-to-physical converter ([AHT10_getTempHumid100]), with the
      32-bit unsigned arithmetic and the store into [int16_t] written out;
    - the fixed-point formatter ([i100toa]), with its [int16_t] locals. *)

From Stdlib Require Import ZArith Zdiv Lia List String Ascii Bool.
From Stdlib Require Import Strings.Byte.
From stdpp Require Import base list.
Import ListNotations.

Local Open Scope Z_scope.

(** ** Machine integers

    The target is a Cortex-M0 with GCC: [int] is 32 bits wide, conversion to
    a narrower signed type keeps the low bits. *)

(** Conversion to [uint32_t]. *)
Definition wrap32 (z : Z) : Z := z mod 2 ^ 32.

(** Conversion to [int16_t]: keep the low 16 bits, read them two's complement. *)
Definition sint16 (z : Z) : Z :=
  let m := z mod 2 ^ 16 in
  if m <? 2 ^ 15 then m else m - 2 ^ 16.

(** Conversion to [int] (32 bits, two's complement). *)
Definition sint32 (z : Z) : Z :=
  let m := z mod 2 ^ 32 in
  if m <? 2 ^ 31 then m else m - 2 ^ 32.

(** The value of a [uint8_t] after integer promotion. *)
Definition u8 (b : byte) : Z := Z.of_N (Byte.to_N b).

Definition is_int16 (z : Z) : Prop := - 2 ^ 15 <= z < 2 ^ 15.

(** Arrays of bytes are lists read with [!!!] and written with [<[i:=b]>].
    Every index used below is a literal inside the array ([0] to [5] of six
    cells); the default of [!!!] is never reached. *)
#[global] Instance byte_inhabited : Inhabited byte := populate x00.

(** ** Raw-to-physical conversion *)

(** [humidData = ( ahtData[1]<<16 | ahtData[2]<<8 | ahtData[3] ) >> 4;]
    The operands are promoted to [int]; the largest value, [0xFFFFFF], is far
    from overflowing it.  The result is stored in a [uint32_t]. *)
Definition humidData_of (ahtData : list byte) : Z :=
  wrap32
    (Z.shiftr
       (Z.lor (Z.lor (Z.shiftl (u8 (ahtData !!! 1%nat)) 16)
                     (Z.shiftl (u8 (ahtData !!! 2%nat)) 8))
              (u8 (ahtData !!! 3%nat)))
       4).

(** [tempData = ( ahtData[3] & 0x0F ) <<16 | ahtData[4]<<8 | ahtData[5];] *)
Definition tempData_of (ahtData : list byte) : Z :=
  wrap32
    (Z.lor (Z.lor (Z.shiftl (Z.land (u8 (ahtData !!! 3%nat)) 0x0F) 16)
                  (Z.shiftl (u8 (ahtData !!! 4%nat)) 8))
           (u8 (ahtData !!! 5%nat))).

(** [*temp100 = (tempData*625) / 32768 - 5000;]
    [tempData] is a [uint32_t], so the constants are converted to unsigned and
    product and difference wrap modulo 2^32; the store narrows to [int16_t]. *)
Definition temp100_of (tempData : Z) : Z :=
  sint16 (wrap32 (wrap32 (tempData * 625) / 32768 - 5000)).

(** [*humid100 = humidData/10486;] *)
Definition humid100_of (humidData : Z) : Z :=
  sint16 (humidData / 10486).

(** ** The I2C transport and the delay routine

    [STM32F030-CMSIS-I2C-lib.c] and [STM32F030-Delay-lib.c] are included by
    the driver but are not part of it.  The driver only needs to call them, so
    a call is an event: the state records every call in order, and the bytes
    the addressed device will deliver when they are read. *)

(** A pointer to the register block of an I2C peripheral. *)
Definition I2C_TypeDef : Type := Z.

Inductive bus_op : Type :=
| Op_init (i2c : I2C_TypeDef) (speed : Z)
| Op_setAddress (i2c : I2C_TypeDef) (addr : Z)
| Op_setNBytes (i2c : I2C_TypeDef) (n : Z)
| Op_setReadMode (i2c : I2C_TypeDef)
| Op_setWriteMode (i2c : I2C_TypeDef)
| Op_start (i2c : I2C_TypeDef)
| Op_stop (i2c : I2C_TypeDef)
| Op_write (i2c : I2C_TypeDef) (b : Z)
| Op_read (i2c : I2C_TypeDef)
| Op_delay_us (us : Z).

Record world : Type := mkWorld {
  AHT10_I2C : I2C_TypeDef;  (* the global [I2C_TypeDef *AHT10_I2C] *)
  sensor : nat -> byte;     (* the bytes the device answers, in order *)
  nread : nat;              (* how many of them have been read *)
  calls : list bus_op       (* the calls made so far, oldest first *)
}.

(** State passing: a routine maps the state to its result and the new state. *)
Definition M (A : Type) : Type := world -> A * world.

Definition ret {A : Type} (a : A) : M A := fun w => (a, w).

Definition bind {A B : Type} (m : M A) (k : A -> M B) : M B :=
  fun w => let (a, w') := m w in k a w'.

Notation "x <- m ;; k" := (bind m (fun x => k))
  (at level 20, m at level 99, k at level 200, only parsing).
Notation "m ;; k" := (bind m (fun _ => k))
  (at level 100, k at level 200, right associativity, only parsing).

Definition emit (op : bus_op) : M unit :=
  fun '(mkWorld i2c dev n ops) => (tt, mkWorld i2c dev n (ops ++ [op])).

(** Modelled from the spec: the transport's [I2C_init], of the missing
    [STM32F030-CMSIS-I2C-lib.c]; a call, nothing returned. *)
Definition I2C_init (i2c : I2C_TypeDef) (speed : Z) : M unit :=
  emit (Op_init i2c speed).

(** Modelled from the spec: the transport's [setAddress(addr)]. *)
Definition I2C_setAddress (i2c : I2C_TypeDef) (addr : Z) : M unit :=
  emit (Op_setAddress i2c addr).

(** Modelled from the spec: the transport's [setByteCount(n)]. *)
Definition I2C_setNBytes (i2c : I2C_TypeDef) (n : Z) : M unit :=
  emit (Op_setNBytes i2c n).

(** Modelled from the spec: the transport's [setReadMode()]. *)
Definition I2C_setReadMode (i2c : I2C_TypeDef) : M unit :=
  emit (Op_setReadMode i2c).

(** Modelled from the spec: the transport's [setWriteMode()]. *)
Definition I2C_setWriteMode (i2c : I2C_TypeDef) : M unit :=
  emit (Op_setWriteMode i2c).

(** Modelled from the spec: the transport's [start()]. *)
Definition I2C_start (i2c : I2C_TypeDef) : M unit := emit (Op_start i2c).

(** Modelled from the spec: the transport's [stop()]. *)
Definition I2C_stop (i2c : I2C_TypeDef) : M unit := emit (Op_stop i2c).

(** Modelled from the spec: the transport's [writeByte(b)]. *)
Definition I2C_write (i2c : I2C_TypeDef) (b : Z) : M unit :=
  emit (Op_write i2c b).

(** Modelled from the spec: the transport's [readByte() -> b]; the call is
    recorded and the device's next byte is returned. *)
Definition I2C_read (i2c : I2C_TypeDef) : M byte :=
  fun '(mkWorld bus dev n ops) =>
    (dev n, mkWorld bus dev (S n) (ops ++ [Op_read i2c])).

(** Modelled from the spec: the timing source's [delayMicroseconds(n)], of
    the missing [STM32F030-Delay-lib.c]. *)
Definition delay_us (us : Z) : M unit := emit (Op_delay_us us).

(** Reading the global [AHT10_I2C] to pass it to a transport routine. *)
Definition on_AHT10_I2C {A : Type} (f : I2C_TypeDef -> M A) : M A :=
  fun '(mkWorld i2c dev n ops) => f i2c (mkWorld i2c dev n ops).

(** [AHT10_I2C = thisI2C;] *)
Definition set_AHT10_I2C (thisI2C : I2C_TypeDef) : M unit :=
  fun '(mkWorld _ dev n ops) => (tt, mkWorld thisI2C dev n ops).

(** ** Sensor protocol driver *)

Definition AHT10_ADD : Z := 0x38.
Definition AHT10_INIT : Z := 0xE1.
Definition AHT10_INIT_D0 : Z := 0x08.
Definition AHT10_INIT_D1 : Z := 0x00.
Definition AHT10_TRIG_MEAS : Z := 0xAC.
Definition AHT10_TRIG_D0 : Z := 0x33.
Definition AHT10_TRIG_D1 : Z := 0x00.

Definition AHT10_init (thisI2C : I2C_TypeDef) (I2CSpeed : Z) : M unit :=
  set_AHT10_I2C thisI2C ;;
  on_AHT10_I2C (fun i2c => I2C_init i2c I2CSpeed) ;;
  on_AHT10_I2C (fun i2c => I2C_setAddress i2c AHT10_ADD) ;;
  on_AHT10_I2C (fun i2c => I2C_setNBytes i2c 3) ;;
  on_AHT10_I2C I2C_start ;;
  on_AHT10_I2C (fun i2c => I2C_write i2c AHT10_INIT) ;;
  on_AHT10_I2C (fun i2c => I2C_write i2c AHT10_INIT_D0) ;;
  on_AHT10_I2C (fun i2c => I2C_write i2c AHT10_INIT_D1) ;;
  on_AHT10_I2C I2C_stop ;;
  delay_us 40.

(** [data] is the caller's array; the routine stores into its cells 0 to 5
    and the updated array is returned.  [75e3] is 75000. *)
Definition AHT10_readSensorData (data : list byte) : M (list byte) :=
  on_AHT10_I2C (fun i2c => I2C_setAddress i2c AHT10_ADD) ;;
  on_AHT10_I2C (fun i2c => I2C_setNBytes i2c 3) ;;
  on_AHT10_I2C I2C_start ;;
  on_AHT10_I2C (fun i2c => I2C_write i2c AHT10_TRIG_MEAS) ;;
  on_AHT10_I2C (fun i2c => I2C_write i2c AHT10_TRIG_D0) ;;
  on_AHT10_I2C (fun i2c => I2C_write i2c AHT10_TRIG_D1) ;;
  on_AHT10_I2C I2C_stop ;;
  delay_us 75000 ;;
  on_AHT10_I2C (fun i2c => I2C_setNBytes i2c 6) ;;
  on_AHT10_I2C I2C_setReadMode ;;
  on_AHT10_I2C I2C_start ;;
  b0 <- on_AHT10_I2C I2C_read ;; let data := <[0%nat := b0]> data in
  b1 <- on_AHT10_I2C I2C_read ;; let data := <[1%nat := b1]> data in
  b2 <- on_AHT10_I2C I2C_read ;; let data := <[2%nat := b2]> data in
  b3 <- on_AHT10_I2C I2C_read ;; let data := <[3%nat := b3]> data in
  b4 <- on_AHT10_I2C I2C_read ;; let data := <[4%nat := b4]> data in
  b5 <- on_AHT10_I2C I2C_read ;; let data := <[5%nat := b5]> data in
  on_AHT10_I2C I2C_stop ;;
  on_AHT10_I2C I2C_setWriteMode ;;
  delay_us 420 ;;
  ret data.

(** What [AHT10_getTempHumid100] hands back: the two values stored through
    its pointer arguments and the returned status byte. *)
Record reading : Type := mkReading {
  temp100 : Z;
  humid100 : Z;
  status : byte
}.

(** The local [ahtData[6]] is not initialised in the source; every cell is
    stored by [AHT10_readSensorData] before it is read (lemma
    [readSensorData_overwrites]), so the model starts it zero filled. *)
Definition AHT10_getTempHumid100 : M reading :=
  ahtData <- AHT10_readSensorData (replicate 6 x00) ;;
  let humidData := humidData_of ahtData in
  let tempData := tempData_of ahtData in
  let temp100 := temp100_of tempData in
  let humid100 := humid100_of humidData in
  ret (mkReading temp100 humid100 (ahtData !!! 0%nat)).

(** ** Fixed-point formatter *)

(** [int abs(int)] of the C library, on the promoted argument. *)
Definition abs (j : Z) : Z := sint32 (if j <? 0 then - j else j).

Definition digit_char (d : Z) : ascii := ascii_of_nat (48 + Z.to_nat d).

(** The digits of [value], least significant first: the C library's loop
    [do { buf[i++] = '0' + value % 10; value /= 10; } while (value != 0);].
    Ten rounds are enough for a 32-bit value. *)
Fixpoint utoa_rev (fuel : nat) (value : Z) : list ascii :=
  match fuel with
  | O => []
  | S fuel' =>
      digit_char (value mod 10)
        :: (if value / 10 =? 0 then [] else utoa_rev fuel' (value / 10))
  end.

Definition utoa (value : Z) : string :=
  string_of_list_ascii (rev (utoa_rev 10 value)).

(** [itoa( value, str, 10 )] of the C library: a minus sign for a negative
    value, then the digits of its magnitude, most significant first. *)
Definition itoa (value : Z) : string :=
  if value <? 0 then String "-" (utoa (- value)) else utoa value.

(** The locals [w] and [d] of [i100toa] when the rounding is done.  All five
    locals are [int16_t]: each initialiser is computed in [int] and narrowed
    by the store; [/] truncates toward zero. *)
Definition i100toa_round (realV : Z) : Z * Z :=
  let x := sint16 (abs realV) in
  let w := sint16 (Z.quot x 100) in
  let f := sint16 (x - w * 100) in
  let d := sint16 (Z.quot f 10) in
  let r := sint16 (f - d * 10) in
  if 5 <=? r then
    let d := sint16 (d + 1) in
    if 10 <=? d then (sint16 (w + 1), 0) else (w, d)
  else (w, d).

(** [strcpy] and [strcat] build [thisString]; the result is its final value. *)
Definition i100toa (realV : Z) : string :=
  let '(w, d) := i100toa_round realV in
  let thisString := if realV <? 0 then "-"%string else ""%string in
  let tmpString := itoa w in
  let thisString := (thisString ++ tmpString)%string in
  let thisString := (thisString ++ ".")%string in
  let tmpString := itoa d in
  (thisString ++ tmpString)%string.

(** ** The formatter as the specification words it

    [x = |value100|], [w = x / 100], [f = x mod 100], [d = f / 10],
    [r = f mod 10]; if [r >= 5] then [d] is incremented, and if it reaches 10
    it is reset to 0 and [w] incremented. *)
Definition round_tenths (value100 : Z) : Z * Z :=
  let x := Z.abs value100 in
  let w := x / 100 in
  let f := x mod 100 in
  let d := f / 10 in
  let r := f mod 10 in
  let d := if 5 <=? r then d + 1 else d in
  if d =? 10 then (w + 1, 0) else (w, d).

(** ["-"] iff [value100 < 0], the decimal digits of [w], ["."], the digit [d]. *)
Definition format_tenths (value100 : Z) : string :=
  let '(w, d) := round_tenths value100 in
  let sign := if value100 <? 0 then "-"%string else ""%string in
  (sign ++ utoa w ++ "." ++ utoa d)%string.

(** Reading a formatted string back, in tenths: an optional ["-"], decimal
    digits up to the point, one digit after it. *)
Definition digit_val (c : ascii) : option Z :=
  let n := Z.of_nat (nat_of_ascii c) in
  if (48 <=? n) && (n <=? 57) then Some (n - 48) else None.

Fixpoint parse_whole (acc : Z) (s : string) : option (Z * string) :=
  match s with
  | EmptyString => None
  | String c s' =>
      if Ascii.eqb c "." then Some (acc, s')
      else match digit_val c with
           | Some d => parse_whole (acc * 10 + d) s'
           | None => None
           end
  end.

Definition parse_unsigned_tenths (s : string) : option Z :=
  match parse_whole 0 s with
  | Some (w, String c EmptyString) =>
      match digit_val c with
      | Some d => Some (w * 10 + d)
      | None => None
      end
  | _ => None
  end.

Definition parse_tenths (s : string) : option Z :=
  match s with
  | String "-" s' => option_map Z.opp (parse_unsigned_tenths s')
  | _ => parse_unsigned_tenths s
  end.

(** [v] rounded to the nearest multiple of 10, a tie going away from zero. *)
Definition round10_away (v : Z) : Z := Z.sgn v * ((Z.abs v + 5) / 10 * 10).

(** ** Reference quantities of the data model *)

(** Bytes 1 to 5 of a measurement as one 40-bit number, byte 1 first. *)
Definition field40 (ahtData : list byte) : Z :=
  u8 (ahtData !!! 1%nat) * 2 ^ 32 + u8 (ahtData !!! 2%nat) * 2 ^ 24
  + u8 (ahtData !!! 3%nat) * 2 ^ 16 + u8 (ahtData !!! 4%nat) * 2 ^ 8
  + u8 (ahtData !!! 5%nat).

(** [q] is the ideal value [scale * h / 2^20], truncated, or one unit below:
    the error a truncating division by a rounded divisor can leave. *)
Definition within_quantization (scale h q : Z) : Prop :=
  0 <= scale * h / 2 ^ 20 - q <= 1.

(** The six bytes the device delivers next. *)
Definition raw_of (w : world) : list byte :=
  map (fun i => sensor w (i + nread w)%nat) (seq 0 6).

(** The calls of one [AHT10_readSensorData], on the bus [i2c]. *)
Definition read_sequence (i2c : I2C_TypeDef) : list bus_op :=
  [ Op_setAddress i2c 0x38; Op_setNBytes i2c 3; Op_start i2c;
    Op_write i2c 0xAC; Op_write i2c 0x33; Op_write i2c 0x00; Op_stop i2c;
    Op_delay_us 75000;
    Op_setNBytes i2c 6; Op_setReadMode i2c; Op_start i2c;
    Op_read i2c; Op_read i2c; Op_read i2c;
    Op_read i2c; Op_read i2c; Op_read i2c;
    Op_stop i2c; Op_setWriteMode i2c;
    Op_delay_us 420 ].

(** A device that answers the listed bytes, then zeros. *)
Definition device (answer : list byte) : nat -> byte :=
  fun i => nth i answer x00.

(** The measurement of the specification's scenario, and the same data
    delivered under the status of an unfinished conversion. *)
Definition world_idle : world :=
  mkWorld 0 (device [x19; x19; x99; x9a; x66; x66]) 0 [].

Definition world_busy : world :=
  mkWorld 0 (device [x99; x19; x99; x9a; x66; x66]) 0 [].

(** ** Further code and reference definitions *)

(** [n] calls of [AHT10_getTempHumid100] in succession, as the loop of [main]
    makes them, with the readings in the order taken. *)
Fixpoint measure (n : nat) : M (list reading) :=
  match n with
  | O => ret []
  | S n' =>
      r <- AHT10_getTempHumid100 ;;
      rs <- measure n' ;;
      ret (r :: rs)
  end.

(** The six bytes a device delivers from position [pos] on, and what the
    converter makes of them. *)
Definition raw_at (dev : nat -> byte) (pos : nat) : list byte :=
  map (fun i => dev (i + pos)%nat) (seq 0 6).

Definition reading_at (dev : nat -> byte) (pos : nat) : reading :=
  mkReading (temp100_of (tempData_of (raw_at dev pos)))
            (humid100_of (humidData_of (raw_at dev pos)))
            (dev pos).

(** The calls of [AHT10_init]. *)
Definition init_sequence (i2c : I2C_TypeDef) (speed : Z) : list bus_op :=
  [ Op_init i2c speed;
    Op_setAddress i2c 0x38; Op_setNBytes i2c 3; Op_start i2c;
    Op_write i2c 0xE1; Op_write i2c 0x08; Op_write i2c 0x00; Op_stop i2c;
    Op_delay_us 40 ].

(** *** Transactions on the bus

    What a sequence of transport calls must respect: the byte count, the
    direction and the address are set between transactions; a transaction
    runs from start to stop, moves bytes in the direction set and moves as
    many as the count announced.  [I2C_init] is taken to leave the direction
    as it is; a delay may come anywhere. *)
Inductive bus_mode : Type := WriteMode | ReadMode.

Record bus_state : Type := mkBus {
  bus_dir : bus_mode;          (* direction of the next transaction *)
  bus_count : Z;               (* byte count of the next transaction *)
  bus_left : option Z          (* bytes still to move, inside a transaction *)
}.

Definition bus_step (s : bus_state) (op : bus_op) : option bus_state :=
  match op, bus_left s with
  | Op_delay_us _, _ => Some s
  | Op_init _ _, None => Some s
  | Op_setAddress _ _, None => Some s
  | Op_setNBytes _ n, None => Some (mkBus (bus_dir s) n None)
  | Op_setReadMode _, None => Some (mkBus ReadMode (bus_count s) None)
  | Op_setWriteMode _, None => Some (mkBus WriteMode (bus_count s) None)
  | Op_start _, None => Some (mkBus (bus_dir s) (bus_count s) (Some (bus_count s)))
  | Op_write _ _, Some k =>
      match bus_dir s with
      | WriteMode =>
          if 0 <? k then Some (mkBus WriteMode (bus_count s) (Some (k - 1)))
          else None
      | ReadMode => None
      end
  | Op_read _, Some k =>
      match bus_dir s with
      | ReadMode =>
          if 0 <? k then Some (mkBus ReadMode (bus_count s) (Some (k - 1)))
          else None
      | WriteMode => None
      end
  | Op_stop _, Some k =>
      if k =? 0 then Some (mkBus (bus_dir s) (bus_count s) None) else None
  | _, _ => None
  end.

Fixpoint bus_run (s : bus_state) (ops : list bus_op) : option bus_state :=
  match ops with
  | [] => Some s
  | op :: ops' =>
      match bus_step s op with
      | Some s' => bus_run s' ops'
      | None => None
      end
  end.

(** The direction the transport is in after a sequence of calls, entered in
    direction [d]: only the two mode calls change it. *)
Definition dir_step (d : bus_mode) (op : bus_op) : bus_mode :=
  match op with
  | Op_setReadMode _ => ReadMode
  | Op_setWriteMode _ => WriteMode
  | _ => d
  end.

Definition dir_after (d : bus_mode) (ops : list bus_op) : bus_mode :=
  fold_left dir_step ops d.

(** The read sequence as the specification words it, with write mode set
    before the trigger: "address 0x38 and 3-byte write mode are set, start,
    ...". *)
Definition specified_read_sequence (i2c : I2C_TypeDef) : list bus_op :=
  [ Op_setAddress i2c 0x38; Op_setNBytes i2c 3; Op_setWriteMode i2c;
    Op_start i2c;
    Op_write i2c 0xAC; Op_write i2c 0x33; Op_write i2c 0x00; Op_stop i2c;
    Op_delay_us 75000;
    Op_setNBytes i2c 6; Op_setReadMode i2c; Op_start i2c;
    Op_read i2c; Op_read i2c; Op_read i2c;
    Op_read i2c; Op_read i2c; Op_read i2c;
    Op_stop i2c; Op_setWriteMode i2c;
    Op_delay_us 420 ].

(** *** The device side of a measurement

    The read response as the comments of [AHT10_readSensorData] lay it out:
    status, Humidity [19:12], Humidity [11:4], Humidity [3:0] with
    Temperature [19:16], Temperature [15:8], Temperature [7:0]. *)
Definition byte_of_Z (z : Z) : byte :=
  match Byte.of_N (Z.to_N (z mod 256)) with
  | Some b => b
  | None => x00
  end.

Definition response (st : byte) (humidity temperature : Z) : list byte :=
  [ st;
    byte_of_Z (Z.shiftr humidity 12);
    byte_of_Z (Z.shiftr humidity 4);
    byte_of_Z (Z.lor (Z.shiftl (Z.land humidity 0x0F) 4)
                     (Z.shiftr temperature 16));
    byte_of_Z (Z.shiftr temperature 8);
    byte_of_Z temperature ].

(** *** The display code of [main.c] *)

(** [outFuzzyHeatIndex( int temp )]: the string it passes to [LCD_puts]. *)
Definition outFuzzyHeatIndex (temp : Z) : string :=
  if temp <? 1 then "freezing"
  else if temp <? 11 then "too cold"
  else if temp <? 18 then " cold   "
  else if temp <? 27 then " nice!  "
  else if temp <? 30 then "  warm  "
  else if temp <? 35 then "  hot   "
  else "too hot!".

(** The characters [main] sends to the first line of the display:
    [i100toa( temp100, myString ); LCD_puts( myString ); LCD_putc( ' ' );
    LCD_putc( 0xDF ); LCD_puts( "C" );] *)
Definition temperature_line (temp100 : Z) : string :=
  let myString := i100toa temp100 in
  (myString ++ String " " (String (ascii_of_N 0xDF) EmptyString) ++ "C")%string.

(** The characters [main] sends to the second line:
    [itoa( humid100, myString, 10 ); LCD_puts( myString );
    LCD_puts( " % RH " );] *)
Definition humidity_line (humid100 : Z) : string :=
  let myString := itoa humid100 in
  (myString ++ " % RH ")%string.

(** The display of [main.c] is an "8x2 LCD Module": eight columns. *)
Definition LCD_COLUMNS : nat := 8.

(** ** Arithmetic of the conversions *)

Lemma u8_range (b : byte) : 0 <= u8 b < 256.
Proof.
  unfold u8. pose proof (Byte.to_N_bounded b). lia.
Qed.

Lemma wrap32_small (z : Z) : 0 <= z < 2 ^ 32 -> wrap32 z = z.
Proof. intros H. unfold wrap32. now apply Z.mod_small. Qed.

Lemma sint16_small (z : Z) : is_int16 z -> sint16 z = z.
Proof.
  unfold is_int16, sint16. intros H.
  destruct (Z_le_gt_dec 0 z) as [Hz | Hz].
  - rewrite Z.mod_small by lia.
    destruct (Z.ltb_spec z (2 ^ 15)); lia.
  - replace (z mod 2 ^ 16) with (z + 2 ^ 16).
    + destruct (Z.ltb_spec (z + 2 ^ 16) (2 ^ 15)); lia.
    + apply Z.mod_unique with (q := -1); lia.
Qed.

(** A value below [2^k] has no bit at position [k] or above. *)
Lemma testbit_above (lo k n : Z) :
  0 <= lo < 2 ^ k -> k <= n -> Z.testbit lo n = false.
Proof.
  intros Hlo Hn.
  destruct (Z.eq_dec lo 0) as [-> | Hne].
  - apply Z.bits_0.
  - apply Z.bits_above_log2; [lia |].
    apply Z.lt_le_trans with k; [| assumption].
    apply Z.log2_lt_pow2; lia.
Qed.

(** A field shifted left by [k] and a value below [2^k] share no bit, so
    [|] adds them. *)
Lemma lor_shiftl_add (hi lo k : Z) :
  0 <= k -> 0 <= lo < 2 ^ k ->
  Z.lor (Z.shiftl hi k) lo = hi * 2 ^ k + lo.
Proof.
  intros Hk Hlo.
  assert (Hdisj : Z.land (Z.shiftl hi k) lo = 0).
  { apply Z.bits_inj'. intros n Hn.
    rewrite Z.land_spec, Z.bits_0.
    destruct (Z_lt_ge_dec n k) as [Hlt | Hge].
    - rewrite Z.shiftl_spec_low by assumption. reflexivity.
    - rewrite (testbit_above lo k n) by lia. apply Bool.andb_false_r. }
  rewrite <- Z.shiftl_mul_pow2 by assumption.
  rewrite <- Z.lxor_lor by assumption.
  symmetry. now apply Z.add_nocarry_lxor.
Qed.

Lemma lor_mul_add (hi lo k : Z) :
  0 <= k -> 0 <= lo < 2 ^ k ->
  Z.lor (hi * 2 ^ k) lo = hi * 2 ^ k + lo.
Proof.
  intros Hk Hlo. rewrite <- lor_shiftl_add by assumption.
  now rewrite Z.shiftl_mul_pow2.
Qed.

(** [a<<16 | b<<8 | c] on three bytes is positional notation in base 256. *)
Lemma lor3_bytes (a b c : Z) :
  0 <= b < 256 -> 0 <= c < 256 ->
  Z.lor (Z.lor (Z.shiftl a 16) (Z.shiftl b 8)) c = a * 2 ^ 16 + b * 2 ^ 8 + c.
Proof.
  intros Hb Hc.
  rewrite (Z.shiftl_mul_pow2 b 8) by lia.
  rewrite lor_shiftl_add by lia.
  replace (a * 2 ^ 16 + b * 2 ^ 8) with ((a * 2 ^ 8 + b) * 2 ^ 8) by lia.
  apply lor_mul_add; lia.
Qed.

Lemma sint16_wrap32 (z : Z) : sint16 (wrap32 z) = sint16 z.
Proof.
  unfold sint16, wrap32.
  rewrite Z.mod_mod_divide; [reflexivity |].
  exists (2 ^ 16). reflexivity.
Qed.

Lemma humidData_of_arith (ahtData : list byte) :
  humidData_of ahtData
  = (u8 (ahtData !!! 1%nat) * 2 ^ 16 + u8 (ahtData !!! 2%nat) * 2 ^ 8
     + u8 (ahtData !!! 3%nat)) / 2 ^ 4.
Proof.
  unfold humidData_of.
  pose proof (u8_range (ahtData !!! 1%nat)) as H1.
  pose proof (u8_range (ahtData !!! 2%nat)) as H2.
  pose proof (u8_range (ahtData !!! 3%nat)) as H3.
  rewrite lor3_bytes by assumption.
  rewrite Z.shiftr_div_pow2 by lia.
  apply wrap32_small.
  split; [apply Z.div_pos; lia |].
  apply Z.div_lt_upper_bound; lia.
Qed.

Lemma tempData_of_arith (ahtData : list byte) :
  tempData_of ahtData
  = u8 (ahtData !!! 3%nat) mod 2 ^ 4 * 2 ^ 16 + u8 (ahtData !!! 4%nat) * 2 ^ 8
    + u8 (ahtData !!! 5%nat).
Proof.
  unfold tempData_of.
  pose proof (u8_range (ahtData !!! 4%nat)) as H4.
  pose proof (u8_range (ahtData !!! 5%nat)) as H5.
  change 15 with (Z.ones 4). rewrite Z.land_ones by lia.
  pose proof (Z.mod_pos_bound (u8 (ahtData !!! 3%nat)) (2 ^ 4)) as H3.
  rewrite lor3_bytes by assumption.
  apply wrap32_small. lia.
Qed.

Lemma humidData_of_range (ahtData : list byte) :
  0 <= humidData_of ahtData < 2 ^ 20.
Proof.
  rewrite humidData_of_arith.
  pose proof (u8_range (ahtData !!! 1%nat)).
  pose proof (u8_range (ahtData !!! 2%nat)).
  pose proof (u8_range (ahtData !!! 3%nat)).
  split; [apply Z.div_pos; lia | apply Z.div_lt_upper_bound; lia].
Qed.

Lemma tempData_of_range (ahtData : list byte) :
  0 <= tempData_of ahtData < 2 ^ 20.
Proof.
  rewrite tempData_of_arith.
  pose proof (Z.mod_pos_bound (u8 (ahtData !!! 3%nat)) (2 ^ 4)).
  pose proof (u8_range (ahtData !!! 4%nat)).
  pose proof (u8_range (ahtData !!! 5%nat)).
  lia.
Qed.

(** The store of [temp100] neither wraps nor narrows on a 20-bit field. *)
Lemma temp100_of_small (t : Z) :
  0 <= t < 2 ^ 20 -> temp100_of t = t * 625 / 32768 - 5000.
Proof.
  intros Ht. unfold temp100_of.
  rewrite (wrap32_small (t * 625)) by lia.
  rewrite sint16_wrap32.
  apply sint16_small. unfold is_int16.
  assert (0 <= t * 625 / 32768 <= 19999).
  { split; [apply Z.div_pos; lia |].
    apply Z.lt_succ_r, Z.div_lt_upper_bound; lia. }
  lia.
Qed.

Lemma humid100_of_small (h : Z) :
  0 <= h < 2 ^ 20 -> humid100_of h = h / 10486 /\ 0 <= h / 10486 <= 99.
Proof.
  intros Hh.
  assert (0 <= h / 10486 <= 99) as Hq.
  { split; [apply Z.div_pos; lia |].
    apply Z.lt_succ_r, Z.div_lt_upper_bound; lia. }
  split; [| exact Hq].
  apply sint16_small. unfold is_int16. lia.
Qed.

(** ** The converter: scaling *)

(** C1: on every 20-bit temperature field the value the code stores,
    [(t*625)/32768 - 5000] in wrapping 32-bit arithmetic narrowed to 16 bits,
    is the direct formula [(t*20000)/2^20 - 5000]; the product [t*625] stays
    below [2^32], so the wrap does not change it. *)
Theorem temp100_matches_direct_formula (t : Z) :
  0 <= t < 2 ^ 20 ->
  temp100_of t = t * 20000 / 2 ^ 20 - 5000
  /\ t * 625 < 2 ^ 32
  /\ wrap32 (t * 625) = t * 625.
Proof.
  intros Ht. split; [| split].
  - rewrite temp100_of_small by assumption.
    replace (t * 20000) with (t * 625 * 32) by lia.
    change (2 ^ 20) with (32768 * 32).
    rewrite Z.div_mul_cancel_r by lia. reflexivity.
  - lia.
  - apply wrap32_small. lia.
Qed.

Lemma temp100_matches_direct_formula_witness :
  0 <= 681574 < 2 ^ 20
  /\ temp100_of 681574 = 681574 * 20000 / 2 ^ 20 - 5000
  /\ 681574 * 625 < 2 ^ 32
  /\ wrap32 (681574 * 625) = 681574 * 625.
Proof.
  split; [lia | apply (temp100_matches_direct_formula 681574); lia].
Defined.

(** C2 as stated fails: the humidity output is a percentage, not hundredths
    of a percent.  At the largest field the code gives 99 where
    [(h/2^20)*10000] is 9999. *)
Lemma humid100_centi_scale_counterexample :
  0 <= 1048575 < 2 ^ 20
  /\ humid100_of 1048575 = 99
  /\ 10000 * 1048575 / 2 ^ 20 = 9999
  /\ ~ within_quantization 10000 1048575 (humid100_of 1048575).
Proof.
  split; [lia |]. split; [reflexivity |]. split; [reflexivity |].
  unfold within_quantization.
  change (humid100_of 1048575) with 99.
  change (10000 * 1048575 / 2 ^ 20) with 9999.
  lia.
Qed.

(** C2 (amended): on every 20-bit humidity field [humid100 = h/10486] is
    within quantization tolerance of [(h/2^20)*100], the humidity in percent:
    it is that value truncated or one below it, and exactly
    [humid100 <= 100*h/2^20 <= humid100 + 1 + 2276/2^20]. *)
Theorem humid100_percent_tolerance (h : Z) :
  0 <= h < 2 ^ 20 ->
  humid100_of h = h / 10486
  /\ within_quantization 100 h (humid100_of h)
  /\ humid100_of h * 2 ^ 20 <= 100 * h
     <= (humid100_of h + 1) * 2 ^ 20 + 2276.
Proof.
  intros Hh.
  destruct (humid100_of_small h Hh) as [-> Hq].
  unfold within_quantization.
  split; [reflexivity |].
  Z.div_mod_to_equations. lia.
Qed.

Lemma humid100_percent_tolerance_witness :
  0 <= 1038113 < 2 ^ 20
  /\ humid100_of 1038113 = 1038113 / 10486
  /\ within_quantization 100 1038113 (humid100_of 1038113)
  /\ humid100_of 1038113 * 2 ^ 20 <= 100 * 1038113
     <= (humid100_of 1038113 + 1) * 2 ^ 20 + 2276.
Proof.
  split; [lia | apply (humid100_percent_tolerance 1038113); lia].
Defined.

(** ** The driver and the converter as state transformers *)

(** One read: the calls made, the bytes consumed and the cells stored. *)
Lemma readSensorData_run (data : list byte) (w : world) :
  AHT10_readSensorData data w
  = (<[5%nat := sensor w (5 + nread w)%nat]>
       (<[4%nat := sensor w (4 + nread w)%nat]>
          (<[3%nat := sensor w (3 + nread w)%nat]>
             (<[2%nat := sensor w (2 + nread w)%nat]>
                (<[1%nat := sensor w (1 + nread w)%nat]>
                   (<[0%nat := sensor w (0 + nread w)%nat]> data))))),
     mkWorld (AHT10_I2C w) (sensor w) (6 + nread w)
             (calls w ++ read_sequence (AHT10_I2C w))).
Proof.
  destruct w as [i2c dev n ops].
  cbv [AHT10_readSensorData bind on_AHT10_I2C I2C_setAddress I2C_setNBytes
       I2C_start I2C_stop I2C_write I2C_read I2C_setReadMode I2C_setWriteMode
       delay_us emit ret read_sequence AHT10_I2C sensor nread calls
       AHT10_ADD AHT10_TRIG_MEAS AHT10_TRIG_D0 AHT10_TRIG_D1 Nat.add].
  rewrite <- !app_assoc. reflexivity.
Qed.

(** The initialisation: the bus is bound, then the calibration command
    0xE1, 0x08, 0x00 is sent to address 0x38 and 40 microseconds pass. *)
Lemma AHT10_init_run (thisI2C : I2C_TypeDef) (I2CSpeed : Z) (w : world) :
  AHT10_init thisI2C I2CSpeed w
  = (tt,
     mkWorld thisI2C (sensor w) (nread w)
       (calls w
        ++ [ Op_init thisI2C I2CSpeed;
             Op_setAddress thisI2C 0x38; Op_setNBytes thisI2C 3;
             Op_start thisI2C;
             Op_write thisI2C 0xE1; Op_write thisI2C 0x08;
             Op_write thisI2C 0x00; Op_stop thisI2C;
             Op_delay_us 40 ])).
Proof.
  destruct w as [i2c dev n ops].
  cbv [AHT10_init bind on_AHT10_I2C set_AHT10_I2C I2C_init I2C_setAddress
       I2C_setNBytes I2C_start I2C_stop I2C_write delay_us emit
       AHT10_I2C sensor nread calls
       AHT10_ADD AHT10_INIT AHT10_INIT_D0 AHT10_INIT_D1].
  rewrite <- !app_assoc. reflexivity.
Qed.

(** Six stores fill an array of six cells, whatever it held. *)
Lemma readSensorData_overwrites (data : list byte) (w : world) :
  length data = 6%nat ->
  fst (AHT10_readSensorData data w) = raw_of w.
Proof.
  intros Hlen. rewrite readSensorData_run.
  do 6 (destruct data as [| ? data]; [discriminate Hlen |]).
  destruct data; [reflexivity | discriminate Hlen].
Qed.

Lemma getTempHumid100_run (w : world) :
  AHT10_getTempHumid100 w
  = (mkReading (temp100_of (tempData_of (raw_of w)))
               (humid100_of (humidData_of (raw_of w)))
               (sensor w (nread w)),
     mkWorld (AHT10_I2C w) (sensor w) (6 + nread w)
             (calls w ++ read_sequence (AHT10_I2C w))).
Proof.
  unfold AHT10_getTempHumid100, bind.
  rewrite readSensorData_run. destruct w; reflexivity.
Qed.

(** ** The converter: field extraction *)

(** C4: the humidity field is [(b1<<16 | b2<<8 | b3) >> 4], the top 20 bits
    of the 40-bit data field, and the temperature field is
    [(b3 & 0x0F)<<16 | b4<<8 | b5], its bottom 20 bits; byte 3 gives its high
    nibble to the humidity and its low nibble to the temperature.  On
    [0x19, 0x19, 0x99, 0x9A, 0x66, 0x66] the fields are [0x19999] and
    [0xA6666] and the status returned is [0x19]. *)
Theorem field_extraction (b0 b1 b2 b3 b4 b5 : byte) :
  let raw := [b0; b1; b2; b3; b4; b5] in
  humidData_of raw
  = Z.shiftr (Z.lor (Z.lor (Z.shiftl (u8 b1) 16) (Z.shiftl (u8 b2) 8)) (u8 b3)) 4
  /\ tempData_of raw
     = Z.lor (Z.lor (Z.shiftl (Z.land (u8 b3) 0x0F) 16) (Z.shiftl (u8 b4) 8))
             (u8 b5)
  /\ humidData_of raw = field40 raw / 2 ^ 20
  /\ tempData_of raw = field40 raw mod 2 ^ 20
  /\ humidData_of raw mod 2 ^ 4 = u8 b3 / 2 ^ 4
  /\ tempData_of raw / 2 ^ 16 = u8 b3 mod 2 ^ 4
  /\ humidData_of [x19; x19; x99; x9a; x66; x66] = 0x19999
  /\ tempData_of [x19; x19; x99; x9a; x66; x66] = 0xA6666
  /\ fst (AHT10_getTempHumid100 world_idle)
     = mkReading (temp100_of 0xA6666) (humid100_of 0x19999) x19.
Proof.
  intros raw.
  pose proof (humidData_of_arith raw) as Hh.
  pose proof (tempData_of_arith raw) as Ht.
  unfold field40. subst raw. cbn [lookup_total list_lookup_total] in *.
  pose proof (u8_range b1). pose proof (u8_range b2).
  pose proof (u8_range b3). pose proof (u8_range b4).
  pose proof (u8_range b5).
  split; [| split; [| split; [| split; [| split; [| split]]]]].
  - rewrite Hh.
    rewrite lor3_bytes, Z.shiftr_div_pow2 by lia. reflexivity.
  - rewrite Ht. change 15 with (Z.ones 4). rewrite Z.land_ones by lia.
    pose proof (Z.mod_pos_bound (u8 b3) (2 ^ 4)).
    rewrite lor3_bytes by lia. reflexivity.
  - rewrite Hh. Z.div_mod_to_equations. lia.
  - rewrite Ht. Z.div_mod_to_equations. lia.
  - rewrite Hh. Z.div_mod_to_equations. lia.
  - rewrite Ht. Z.div_mod_to_equations. lia.
  - split; [| split]; vm_compute; reflexivity.
Qed.

(** C9: whatever six bytes the device delivers, [temp100] is in
    [-5000, 14999] and [humid100] in [0, 99], 99 being reached at the largest
    humidity field [2^20 - 1]; the product [tempData*625] is at most
    655359375, below [2^32], and both results are stored in [int16_t]
    unchanged. *)
Theorem getTempHumid100_ranges (w : world) :
  let r := fst (AHT10_getTempHumid100 w) in
  let tempData := tempData_of (raw_of w) in
  let humidData := humidData_of (raw_of w) in
  -5000 <= temp100 r <= 14999
  /\ 0 <= humid100 r <= 99
  /\ humid100_of (2 ^ 20 - 1) = 99
  /\ tempData * 625 <= 655359375
  /\ 655359375 < 2 ^ 32
  /\ wrap32 (tempData * 625) = tempData * 625
  /\ temp100 r = tempData * 625 / 32768 - 5000
  /\ humid100 r = humidData / 10486.
Proof.
  intros r tempData humidData.
  pose proof (tempData_of_range (raw_of w)) as Ht.
  pose proof (humidData_of_range (raw_of w)) as Hh.
  fold tempData in Ht. fold humidData in Hh.
  assert (Hr : temp100 r = tempData * 625 / 32768 - 5000
               /\ humid100 r = humidData / 10486).
  { subst r. rewrite getTempHumid100_run. cbn [fst temp100 humid100].
    fold tempData humidData.
    rewrite temp100_of_small by assumption.
    destruct (humid100_of_small humidData Hh) as [-> _]. now split. }
  destruct Hr as [Hr1 Hr2].
  destruct (humid100_of_small humidData Hh) as [_ Hq].
  assert (0 <= tempData * 625 / 32768 <= 19999).
  { split; [apply Z.div_pos; lia |].
    apply Z.lt_succ_r, Z.div_lt_upper_bound; lia. }
  split; [lia |]. split; [lia |]. split; [reflexivity |].
  split; [lia |]. split; [lia |].
  split; [apply wrap32_small; lia |].
  split; assumption.
Qed.

(** ** The driver: the read transaction *)

(** C6 as stated fails: the routine does not set write mode before the
    trigger.  Up to the first start it sets the address and the byte count
    only, so a transport entered in read mode is still in read mode when the
    trigger starts; the sequence with write mode set first is not the one
    made. *)
Lemma readSensorData_write_mode_counterexample :
  calls (snd (AHT10_readSensorData (replicate 6 x00) world_idle))
  <> specified_read_sequence 0
  /\ take 3 (calls (snd (AHT10_readSensorData (replicate 6 x00) world_idle)))
     = [Op_setAddress 0 0x38; Op_setNBytes 0 3; Op_start 0]
  /\ dir_after ReadMode
       (take 2 (calls (snd (AHT10_readSensorData (replicate 6 x00)
                              world_idle))))
     = ReadMode.
Proof.
  rewrite readSensorData_run.
  split; [discriminate |]. split; reflexivity.
Qed.

(** C6 (amended): every call of [AHT10_readSensorData] makes these calls and
    no other, in this order: address 0x38, byte count 3, start, writes of
    0xAC, 0x33 and 0x00, stop; a delay of 75000 microseconds; byte count 6,
    read mode, start, six reads stored in order in [data[0]] to [data[5]],
    stop, write mode; a delay of 420 microseconds.  The list does not depend
    on what is read.  The direction is not set before the trigger, which goes
    out in the direction the transport was entered in; the call leaves the
    transport in write mode, whatever direction it was entered in. *)
Theorem readSensorData_sequence (data : list byte) (w : world) :
  (6 <= length data)%nat ->
  let data' := fst (AHT10_readSensorData data w) in
  let w' := snd (AHT10_readSensorData data w) in
  calls w' = calls w ++ read_sequence (AHT10_I2C w)
  /\ read_sequence (AHT10_I2C w)
     = [ Op_setAddress (AHT10_I2C w) 0x38; Op_setNBytes (AHT10_I2C w) 3;
         Op_start (AHT10_I2C w);
         Op_write (AHT10_I2C w) 0xAC; Op_write (AHT10_I2C w) 0x33;
         Op_write (AHT10_I2C w) 0x00; Op_stop (AHT10_I2C w);
         Op_delay_us 75000;
         Op_setNBytes (AHT10_I2C w) 6; Op_setReadMode (AHT10_I2C w);
         Op_start (AHT10_I2C w);
         Op_read (AHT10_I2C w); Op_read (AHT10_I2C w); Op_read (AHT10_I2C w);
         Op_read (AHT10_I2C w); Op_read (AHT10_I2C w); Op_read (AHT10_I2C w);
         Op_stop (AHT10_I2C w); Op_setWriteMode (AHT10_I2C w);
         Op_delay_us 420 ]
  /\ take 6 data' = raw_of w
  /\ raw_of w = [ sensor w (nread w); sensor w (1 + nread w)%nat;
                  sensor w (2 + nread w)%nat; sensor w (3 + nread w)%nat;
                  sensor w (4 + nread w)%nat; sensor w (5 + nread w)%nat ]
  /\ drop 6 data' = drop 6 data
  /\ nread w' = (6 + nread w)%nat
  /\ AHT10_I2C w' = AHT10_I2C w
  /\ (forall d : bus_mode,
        dir_after d (take 8 (read_sequence (AHT10_I2C w))) = d)
  /\ (forall d : bus_mode,
        dir_after d (read_sequence (AHT10_I2C w)) = WriteMode).
Proof.
  intros Hlen data' w'. subst data' w'.
  rewrite readSensorData_run. cbn [fst snd calls nread AHT10_I2C].
  split; [reflexivity |]. split; [reflexivity |].
  do 6 (destruct data as [| ? data]; [cbn in Hlen; lia |]).
  repeat split; reflexivity.
Qed.

Lemma readSensorData_sequence_witness :
  (6 <= length (replicate 6 x00))%nat
  /\ calls (snd (AHT10_readSensorData (replicate 6 x00) world_idle))
     = read_sequence 0
  /\ fst (AHT10_readSensorData (replicate 6 x00) world_idle)
     = [x19; x19; x99; x9a; x66; x66].
Proof.
  assert (Hlen : (6 <= length (replicate 6 x00))%nat) by (cbn; lia).
  split; [exact Hlen |].
  destruct (readSensorData_sequence (replicate 6 x00) world_idle Hlen)
    as (Hcalls & _ & Htake & _).
  split; [exact Hcalls | exact Htake].
Defined.

(** ** The converter: the status byte *)

(** C7: the status returned is byte 0 of the measurement as read, and nothing
    else depends on that byte: on two devices whose answers differ in byte 0
    only, the two values computed and the calls made are the same. *)
Theorem getTempHumid100_status_passthrough (w1 w2 : world) :
  AHT10_I2C w1 = AHT10_I2C w2 ->
  calls w1 = calls w2 ->
  nread w1 = nread w2 ->
  (forall i : nat, i <> nread w1 -> sensor w1 i = sensor w2 i) ->
  status (fst (AHT10_getTempHumid100 w1)) = sensor w1 (nread w1)
  /\ status (fst (AHT10_getTempHumid100 w2)) = sensor w2 (nread w2)
  /\ temp100 (fst (AHT10_getTempHumid100 w1))
     = temp100 (fst (AHT10_getTempHumid100 w2))
  /\ humid100 (fst (AHT10_getTempHumid100 w1))
     = humid100 (fst (AHT10_getTempHumid100 w2))
  /\ calls (snd (AHT10_getTempHumid100 w1))
     = calls (snd (AHT10_getTempHumid100 w2))
  /\ nread (snd (AHT10_getTempHumid100 w1))
     = nread (snd (AHT10_getTempHumid100 w2)).
Proof.
  intros Hbus Hcalls Hpos Hsame.
  rewrite !getTempHumid100_run.
  cbn [fst snd status temp100 humid100 calls nread].
  split; [reflexivity |]. split; [reflexivity |].
  assert (Htemp : tempData_of (raw_of w1) = tempData_of (raw_of w2)).
  { unfold tempData_of, raw_of. cbn. rewrite <- Hpos.
    rewrite !(Hsame _) by lia. reflexivity. }
  assert (Hhumid : humidData_of (raw_of w1) = humidData_of (raw_of w2)).
  { unfold humidData_of, raw_of. cbn. rewrite <- Hpos.
    rewrite !(Hsame _) by lia. reflexivity. }
  rewrite Htemp, Hhumid, Hbus, Hcalls, Hpos. repeat split; reflexivity.
Qed.

Lemma getTempHumid100_status_passthrough_witness :
  AHT10_I2C world_idle = AHT10_I2C world_busy
  /\ calls world_idle = calls world_busy
  /\ nread world_idle = nread world_busy
  /\ (forall i : nat, i <> nread world_idle ->
      sensor world_idle i = sensor world_busy i)
  /\ status (fst (AHT10_getTempHumid100 world_idle)) = x19
  /\ status (fst (AHT10_getTempHumid100 world_busy)) = x99
  /\ temp100 (fst (AHT10_getTempHumid100 world_idle))
     = temp100 (fst (AHT10_getTempHumid100 world_busy))
  /\ humid100 (fst (AHT10_getTempHumid100 world_idle))
     = humid100 (fst (AHT10_getTempHumid100 world_busy))
  /\ calls (snd (AHT10_getTempHumid100 world_idle))
     = calls (snd (AHT10_getTempHumid100 world_busy)).
Proof.
  assert (Hsame : forall i : nat, i <> nread world_idle ->
                  sensor world_idle i = sensor world_busy i).
  { intros [| i] Hi; [exfalso; apply Hi |]; reflexivity. }
  split; [reflexivity |]. split; [reflexivity |]. split; [reflexivity |].
  split; [exact Hsame |].
  destruct (getTempHumid100_status_passthrough world_idle world_busy
              eq_refl eq_refl eq_refl Hsame) as (H1 & H2 & H3 & H4 & H5 & _).
  split; [exact H1 |]. split; [exact H2 |]. split; [exact H3 |].
  split; [exact H4 | exact H5].
Defined.

(** ** The formatter: rounding *)

Lemma abs_small (j : Z) : - 2 ^ 31 < j < 2 ^ 31 -> abs j = Z.abs j.
Proof.
  intros Hj. unfold abs, sint32.
  assert (Hm : (if j <? 0 then - j else j) = Z.abs j)
    by (destruct (Z.ltb_spec j 0); lia).
  rewrite Hm, Z.mod_small by lia.
  destruct (Z.ltb_spec (Z.abs j) (2 ^ 31)); lia.
Qed.

Ltac narrow16 e :=
  rewrite (sint16_small e) by (unfold is_int16; lia).

(** Away from [INT16_MIN] no local of [i100toa] overflows, and the code
    rounds as the specification says. *)
Lemma i100toa_round_spec (realV : Z) :
  - 2 ^ 15 < realV < 2 ^ 15 ->
  i100toa_round realV = round_tenths realV.
Proof.
  intros Hv. unfold i100toa_round, round_tenths.
  rewrite abs_small by lia.
  set (x := Z.abs realV). assert (Hx : 0 <= x < 2 ^ 15) by lia.
  narrow16 x.
  rewrite Z.quot_div_nonneg by lia.
  assert (Hw : 0 <= x / 100 <= 327) by (Z.div_mod_to_equations; lia).
  narrow16 (x / 100).
  assert (Hf : x - x / 100 * 100 = x mod 100)
    by (Z.div_mod_to_equations; lia).
  rewrite Hf.
  assert (Hf' : 0 <= x mod 100 < 100) by (apply Z.mod_pos_bound; lia).
  narrow16 (x mod 100).
  set (f := x mod 100) in *.
  rewrite Z.quot_div_nonneg by lia.
  assert (Hd : 0 <= f / 10 <= 9) by (Z.div_mod_to_equations; lia).
  narrow16 (f / 10).
  assert (Hr : f - f / 10 * 10 = f mod 10) by (Z.div_mod_to_equations; lia).
  rewrite Hr.
  assert (Hr' : 0 <= f mod 10 < 10) by (apply Z.mod_pos_bound; lia).
  narrow16 (f mod 10).
  destruct (Z.leb_spec 5 (f mod 10)).
  - narrow16 (f / 10 + 1).
    destruct (Z.leb_spec 10 (f / 10 + 1)), (Z.eqb_spec (f / 10 + 1) 10);
      try lia; [narrow16 (x / 100 + 1) |]; reflexivity.
  - destruct (Z.eqb_spec (f / 10) 10); [lia | reflexivity].
Qed.

(** The rounded parts: a digit, a whole part of at most three digits, and
    together the magnitude rounded half up to tenths. *)
Lemma round_tenths_value (v : Z) :
  - 2 ^ 15 < v < 2 ^ 15 ->
  0 <= fst (round_tenths v) <= 328
  /\ 0 <= snd (round_tenths v) <= 9
  /\ fst (round_tenths v) * 10 + snd (round_tenths v) = (Z.abs v + 5) / 10.
Proof.
  intros Hv. unfold round_tenths.
  set (x := Z.abs v). assert (Hx : 0 <= x < 2 ^ 15) by lia.
  destruct (Z.leb_spec 5 ((x mod 100) mod 10));
    match goal with
    | |- context [?a =? 10] => destruct (Z.eqb_spec a 10)
    end; cbn [fst snd]; Z.div_mod_to_equations; lia.
Qed.

(** ** The formatter: digits *)

Lemma append_length (a b : string) :
  String.length (a ++ b) = (String.length a + String.length b)%nat.
Proof. induction a as [| c a IH]; cbn; [| rewrite IH]; reflexivity. Qed.

Lemma append_assoc (a b c : string) :
  ((a ++ b) ++ c)%string = (a ++ (b ++ c))%string.
Proof. induction a as [| x a IH]; cbn; [| rewrite IH]; reflexivity. Qed.

Lemma string_of_list_ascii_app (l1 l2 : list ascii) :
  string_of_list_ascii (l1 ++ l2)
  = (string_of_list_ascii l1 ++ string_of_list_ascii l2)%string.
Proof. induction l1 as [| c l1 IH]; cbn; [| rewrite IH]; reflexivity. Qed.

Lemma string_of_list_ascii_length (l : list ascii) :
  String.length (string_of_list_ascii l) = List.length l.
Proof. induction l as [| c l IH]; cbn; [| rewrite IH]; reflexivity. Qed.


Lemma digit_cases (d : Z) :
  0 <= d <= 9 ->
  d = 0 \/ d = 1 \/ d = 2 \/ d = 3 \/ d = 4
  \/ d = 5 \/ d = 6 \/ d = 7 \/ d = 8 \/ d = 9.
Proof. lia. Qed.

(** A digit's character reads back as the digit, and is not the point. *)
Lemma digit_char_val (d : Z) :
  0 <= d <= 9 ->
  digit_val (digit_char d) = Some d /\ Ascii.eqb (digit_char d) "." = false.
Proof.
  intros Hd.
  destruct (digit_cases d Hd) as [-> | [-> | [-> | [-> | [-> | [-> | [-> |
    [-> | [-> | ->]]]]]]]]]; split; reflexivity.
Qed.

(** A one-digit number prints as its digit. *)
Lemma utoa_digit (d : Z) :
  0 <= d <= 9 -> utoa d = String (digit_char d) EmptyString.
Proof.
  intros Hd.
  destruct (digit_cases d Hd) as [-> | [-> | [-> | [-> | [-> | [-> | [-> |
    [-> | [-> | ->]]]]]]]]]; reflexivity.
Qed.

(** A number below [10^k] prints in at most [k] digits, and at least one. *)
Lemma utoa_rev_length (fuel : nat) :
  forall (value : Z) (k : nat),
    0 <= value < 10 ^ Z.of_nat k -> (1 <= k)%nat -> (1 <= fuel)%nat ->
    (1 <= List.length (utoa_rev fuel value) <= k)%nat.
Proof.
  induction fuel as [| fuel IH]; intros value k Hv Hk Hfuel; [lia |].
  cbn [utoa_rev].
  destruct (Z.eqb_spec (value / 10) 0) as [Hq | Hq]; cbn [List.length].
  { clear - Hk. lia. }
  destruct k as [| [| k]]; [lia | |].
  { exfalso. apply Hq. change (10 ^ Z.of_nat 1) with 10 in Hv.
    apply Z.div_small. lia. }
  assert (Hq' : 0 <= value / 10 < 10 ^ Z.of_nat (S k)).
  { rewrite (Nat2Z.inj_succ (S k)), Z.pow_succ_r in Hv by lia.
    split; [apply Z.div_pos; lia | apply Z.div_lt_upper_bound; lia]. }
  destruct fuel as [| fuel]; [cbn [utoa_rev List.length]; clear; lia |].
  pose proof (IH (value / 10) (S k) Hq' ltac:(clear; lia) ltac:(clear; lia))
    as Hlen.
  clear - Hlen. lia.
Qed.

Lemma utoa_length (value : Z) (k : nat) :
  0 <= value < 10 ^ Z.of_nat k -> (1 <= k)%nat ->
  (1 <= String.length (utoa value) <= k)%nat.
Proof.
  intros Hv Hk. unfold utoa.
  rewrite string_of_list_ascii_length, length_rev.
  apply utoa_rev_length; [assumption | assumption | clear; lia].
Qed.

(** Reading the printed digits of [value] leaves [value] in the accumulator. *)
Lemma parse_whole_utoa_rev (fuel : nat) :
  forall (value : Z) (rest : string),
    0 <= value < 10 ^ Z.of_nat fuel ->
    parse_whole 0 (string_of_list_ascii (rev (utoa_rev fuel value)) ++ rest)
    = parse_whole value rest.
Proof.
  induction fuel as [| fuel IH]; intros value rest Hv.
  { change (10 ^ Z.of_nat 0) with 1 in Hv.
    replace value with 0 by lia. reflexivity. }
  assert (Hd : 0 <= value mod 10 <= 9)
    by (pose proof (Z.mod_pos_bound value 10); lia).
  destruct (digit_char_val _ Hd) as [Hval Hdot].
  cbn [utoa_rev].
  destruct (Z.eqb_spec (value / 10) 0) as [Hq | Hq].
  - cbn [rev app string_of_list_ascii append parse_whole].
    rewrite Hdot, Hval. f_equal.
    Z.div_mod_to_equations. lia.
  - cbn [rev]. rewrite string_of_list_ascii_app, append_assoc.
    rewrite IH.
    + cbn [string_of_list_ascii append parse_whole].
      rewrite Hdot, Hval. f_equal.
      Z.div_mod_to_equations. lia.
    + rewrite Nat2Z.inj_succ, Z.pow_succ_r in Hv by lia.
      split; [apply Z.div_pos; lia | apply Z.div_lt_upper_bound; lia].
Qed.

Lemma parse_whole_utoa (value : Z) (rest : string) :
  0 <= value < 10 ^ 10 ->
  parse_whole 0 (utoa value ++ rest) = parse_whole value rest.
Proof. intros Hv. apply (parse_whole_utoa_rev 10). exact Hv. Qed.

(** ** The formatter: the string *)

Lemma itoa_nonneg (value : Z) : 0 <= value -> itoa value = utoa value.
Proof.
  intros Hv. unfold itoa. destruct (Z.ltb_spec value 0); [lia | reflexivity].
Qed.

(** Away from [INT16_MIN] the code prints what the specification describes:
    the sign of the input, the whole part, the point, one digit. *)
Lemma i100toa_format (realV : Z) :
  - 2 ^ 15 < realV < 2 ^ 15 -> i100toa realV = format_tenths realV.
Proof.
  intros Hv. unfold i100toa, format_tenths.
  rewrite i100toa_round_spec by assumption.
  destruct (round_tenths_value realV Hv) as (Hw & Hd & _).
  destruct (round_tenths realV) as [w d]. cbn [fst snd] in Hw, Hd.
  rewrite !itoa_nonneg by lia.
  now rewrite !append_assoc.
Qed.

Lemma i100toa_shape (realV : Z) :
  - 2 ^ 15 < realV < 2 ^ 15 ->
  exists w d : Z,
    round_tenths realV = (w, d)
    /\ 0 <= w <= 328 /\ 0 <= d <= 9
    /\ w * 10 + d = (Z.abs realV + 5) / 10
    /\ i100toa realV
       = ((if (realV <? 0)%Z then "-" else "")
            ++ utoa w ++ String "." (String (digit_char d) EmptyString))%string.
Proof.
  intros Hv.
  destruct (round_tenths_value realV Hv) as (Hw & Hd & Hval).
  rewrite i100toa_format by assumption. unfold format_tenths.
  destruct (round_tenths realV) as [w d]. cbn [fst snd] in Hw, Hd, Hval.
  exists w, d. rewrite (utoa_digit d Hd).
  repeat (split; [first [reflexivity | assumption | lia] |]). reflexivity.
Qed.

(** The scenarios of the specification. *)
Example i100toa_scenarios :
  i100toa (-235) = "-2.4"%string
  /\ i100toa 1996 = "20.0"%string
  /\ i100toa 0 = "0.0"%string
  /\ i100toa 2753 = "27.5"%string
  /\ i100toa 1236 = "12.4"%string.
Proof. repeat split; reflexivity. Qed.

(** C3: the code does not print [|value100|] rounded to one decimal for
    every [int16_t] input.  At -32768 the magnitude 32768 does not fit the
    [int16_t] local [x], which becomes -32768 again; [w] and [d] come out as
    -327 and -6 and the string is ["--327.-6"], where the specification's
    recipe gives ["-327.7"]. *)
Theorem i100toa_int16_min :
  is_int16 (-32768)
  /\ sint16 (abs (-32768)) = -32768
  /\ i100toa_round (-32768) = (-327, -6)
  /\ i100toa (-32768) = "--327.-6"%string
  /\ format_tenths (-32768) = "-327.7"%string
  /\ i100toa (-32768) <> format_tenths (-32768).
Proof.
  split; [unfold is_int16; lia |].
  repeat (split; [reflexivity |]). discriminate.
Qed.

(** X14: away from [INT16_MIN] the string has three to six characters, at
    most seven bytes with the terminator. *)
Lemma i100toa_length (realV : Z) :
  - 2 ^ 15 < realV < 2 ^ 15 ->
  (4 <= String.length (i100toa realV) + 1 <= 7)%nat.
Proof.
  intros Hv.
  destruct (i100toa_shape realV Hv) as (w & d & _ & Hw & _ & _ & ->).
  assert (Hlen : (1 <= String.length (utoa w) <= 3)%nat).
  { apply utoa_length; [change (10 ^ Z.of_nat 3) with 1000 |]; lia. }
  rewrite !append_length. cbn [String.length].
  destruct (realV <? 0); cbn [String.length]; lia.
Qed.

(** C8: the string of [i100toa] is not bounded by seven bytes for every
    [int16_t] input.  At -32768 it is ["--327.-6"]: eight characters, nine
    bytes with the terminator, two signs before the digits and one after the
    point. *)
Theorem i100toa_int16_min_length :
  is_int16 (-32768)
  /\ i100toa (-32768) = "--327.-6"%string
  /\ (String.length (i100toa (-32768)) + 1 = 9)%nat
  /\ ~ (String.length (i100toa (-32768)) + 1 <= 7)%nat.
Proof.
  split; [unfold is_int16; lia |].
  split; [reflexivity |]. split; [reflexivity |].
  change (String.length (i100toa (-32768))) with 8%nat. lia.
Qed.

(** ** The formatter: reading the string back *)

(** A string that reads as an unsigned number does not start with a sign. *)
Lemma parse_tenths_unsigned (s : string) :
  parse_unsigned_tenths s <> None ->
  parse_tenths s = parse_unsigned_tenths s.
Proof.
  destruct s as [| c s]; [reflexivity |].
  destruct c as [[] [] [] [] [] [] [] []]; try reflexivity.
  intros H. exfalso. apply H. reflexivity.
Qed.

Lemma parse_unsigned_tenths_digits (w d : Z) :
  0 <= w < 10 ^ 10 -> 0 <= d <= 9 ->
  parse_unsigned_tenths
    (utoa w ++ String "." (String (digit_char d) EmptyString))
  = Some (w * 10 + d).
Proof.
  intros Hw Hd. unfold parse_unsigned_tenths.
  rewrite parse_whole_utoa by assumption.
  cbn [parse_whole]. change (Ascii.eqb "." ".") with true. cbn iota.
  destruct (digit_char_val d Hd) as [-> _]. reflexivity.
Qed.

(** What [i100toa] prints reads back as the input's magnitude rounded half up
    to tenths, under the input's sign. *)
Lemma parse_i100toa (realV : Z) :
  - 2 ^ 15 < realV < 2 ^ 15 ->
  parse_tenths (i100toa realV)
  = Some (Z.sgn realV * ((Z.abs realV + 5) / 10)).
Proof.
  intros Hv.
  destruct (i100toa_shape realV Hv) as (w & d & _ & Hw & Hd & Hval & ->).
  assert (Hw' : 0 <= w < 10 ^ 10) by lia.
  pose proof (parse_unsigned_tenths_digits w d Hw' Hd) as Hparse.
  rewrite <- Hval.
  destruct (Z.ltb_spec realV 0) as [Hneg | Hpos].
  - change ("-" ++ ?s)%string with (String "-" s).
    cbn [parse_tenths]. rewrite Hparse. cbn [option_map].
    f_equal. rewrite Z.sgn_neg by assumption. lia.
  - change ("" ++ ?s)%string with s.
    rewrite parse_tenths_unsigned by (rewrite Hparse; discriminate).
    rewrite Hparse. f_equal.
    destruct (Z.eq_dec realV 0) as [-> | Hne].
    + change ((Z.abs 0 + 5) / 10) with 0 in Hval.
      change (Z.sgn 0) with 0. lia.
    + rewrite Z.sgn_pos by lia. lia.
Qed.

(** C5: for every [v] in [-9999, 9999] the string of [i100toa v], read back
    as a signed decimal with one fractional digit (a number of tenths) and
    multiplied by 10, is [v] rounded to the nearest multiple of 10, a tie
    going away from zero. *)
Theorem i100toa_round_trip (v : Z) :
  -9999 <= v <= 9999 ->
  exists t : Z,
    parse_tenths (i100toa v) = Some t
    /\ t * 10 = round10_away v
    /\ Z.abs (t * 10 - v) <= 5.
Proof.
  intros Hv.
  exists (Z.sgn v * ((Z.abs v + 5) / 10)).
  split; [apply parse_i100toa; lia |].
  unfold round10_away. split; [ring |].
  destruct (Z.sgn_spec v) as [[Hs ->] | [[Hs ->] | [Hs ->]]];
    Z.div_mod_to_equations; lia.
Qed.

Lemma i100toa_round_trip_witness :
  -9999 <= -235 <= 9999
  /\ exists t : Z,
       parse_tenths (i100toa (-235)) = Some t
       /\ t * 10 = round10_away (-235)
       /\ Z.abs (t * 10 - -235) <= 5.
Proof.
  split; [lia | apply (i100toa_round_trip (-235)); lia].
Defined.



(** ** Further properties of the driver *)

(** X1: [AHT10_init] binds the driver to the bus it is given, whatever bus
    was bound before, sends the calibration command and reads nothing; the
    measurement that follows runs on that bus and converts the first six
    bytes the device delivers. *)
Theorem init_binds_bus (thisI2C : I2C_TypeDef) (I2CSpeed : Z) (w : world) :
  let w1 := snd (AHT10_init thisI2C I2CSpeed w) in
  AHT10_I2C w1 = thisI2C
  /\ nread w1 = nread w
  /\ calls w1 = calls w ++ init_sequence thisI2C I2CSpeed
  /\ calls (snd (AHT10_getTempHumid100 w1))
     = calls w ++ init_sequence thisI2C I2CSpeed ++ read_sequence thisI2C
  /\ fst (AHT10_getTempHumid100 w1) = reading_at (sensor w) (nread w).
Proof.
  intros w1. subst w1.
  rewrite getTempHumid100_run, AHT10_init_run.
  cbn [fst snd AHT10_I2C nread calls sensor].
  rewrite <- app_assoc.
  repeat split; reflexivity.
Qed.

(** Successive measurements: each consumes the next six bytes and repeats
    the same calls. *)
Lemma measure_run (n : nat) :
  forall w : world,
    measure n w
    = (map (fun k => reading_at (sensor w) (6 * k + nread w)%nat) (seq 0 n),
       mkWorld (AHT10_I2C w) (sensor w) (6 * n + nread w)%nat
         (calls w ++ concat (replicate n (read_sequence (AHT10_I2C w))))).
Proof.
  induction n as [| n IH]; intros w.
  - destruct w as [i2c dev pos ops]. cbn. now rewrite app_nil_r.
  - cbn [measure]. unfold bind at 1. rewrite getTempHumid100_run.
    unfold bind at 1. rewrite IH.
    cbn [AHT10_I2C sensor nread calls ret].
    f_equal.
    + cbn [seq map]. f_equal.
      rewrite <- seq_shift, map_map.
      apply map_ext. intros k. f_equal. lia.
    + f_equal; [lia |].
      cbn [replicate concat]. now rewrite <- app_assoc.
Qed.

(** X2: [n] measurements in succession read [6 * n] bytes, the [k]-th one
    converting bytes [6 * k] to [6 * k + 5] counted from where the device
    stood, with the status byte [6 * k]; the calls made are [n] repetitions of
    the read sequence and the bus bound stays bound. *)
Theorem measure_in_order (n : nat) (w : world) :
  fst (measure n w)
  = map (fun k => reading_at (sensor w) (6 * k + nread w)%nat) (seq 0 n)
  /\ List.length (fst (measure n w)) = n
  /\ nread (snd (measure n w)) = (6 * n + nread w)%nat
  /\ calls (snd (measure n w))
     = calls w ++ concat (replicate n (read_sequence (AHT10_I2C w)))
  /\ AHT10_I2C (snd (measure n w)) = AHT10_I2C w.
Proof.
  rewrite measure_run. cbn [fst snd nread calls AHT10_I2C].
  rewrite length_map, length_seq. repeat split; reflexivity.
Qed.

Lemma bus_run_app (a b : list bus_op) :
  forall s : bus_state,
    bus_run s (a ++ b)
    = match bus_run s a with
      | Some s' => bus_run s' b
      | None => None
      end.
Proof.
  induction a as [| op a IH]; intros s; cbn [app bus_run]; [reflexivity |].
  destruct (bus_step s op); [apply IH | reflexivity].
Qed.

Lemma bus_run_reads (i2c : I2C_TypeDef) (n : nat) :
  forall count : Z,
    bus_run (mkBus WriteMode count None)
            (concat (replicate n (read_sequence i2c)))
    = Some (mkBus WriteMode (match n with O => count | S _ => 6 end) None).
Proof.
  induction n as [| n IH]; intros count; [reflexivity |].
  cbn [replicate concat]. rewrite bus_run_app.
  change (bus_run (mkBus WriteMode count None) (read_sequence i2c))
    with (Some (mkBus WriteMode 6 None)).
  cbv beta iota. rewrite IH. destruct n; reflexivity.
Qed.

(** X3: from a transport that is idle in write mode, the calls of
    [AHT10_init] followed by any number of measurements form complete
    transactions: every start is followed by exactly the bytes announced, in
    the direction set, and a stop; at the end the transport is idle in write
    mode again.  Entered in read mode, the read sequence breaks at its first
    write: the restore at its end is what lets it be repeated. *)
Theorem driver_transactions_complete
  (thisI2C : I2C_TypeDef) (I2CSpeed : Z) (n : nat) (count : Z) (w : world) :
  let ops := init_sequence thisI2C I2CSpeed
             ++ concat (replicate n (read_sequence thisI2C)) in
  calls (snd ((AHT10_init thisI2C I2CSpeed ;; measure n) w)) = calls w ++ ops
  /\ bus_run (mkBus WriteMode count None) ops
     = Some (mkBus WriteMode (match n with O => 3 | S _ => 6 end) None)
  /\ bus_run (mkBus ReadMode count None) (read_sequence thisI2C) = None.
Proof.
  intros ops. subst ops. split; [| split].
  - unfold bind. rewrite AHT10_init_run, measure_run.
    cbn [snd calls AHT10_I2C]. now rewrite <- app_assoc.
  - rewrite bus_run_app.
    change (bus_run (mkBus WriteMode count None)
                    (init_sequence thisI2C I2CSpeed))
      with (Some (mkBus WriteMode 3 None)).
    cbv beta iota. apply bus_run_reads.
  - reflexivity.
Qed.

(** ** Further properties of the converter *)

Lemma u8_byte_of_Z (z : Z) : u8 (byte_of_Z z) = z mod 256.
Proof.
  unfold byte_of_Z, u8.
  pose proof (Z.mod_pos_bound z 256 ltac:(lia)) as Hm.
  destruct (Byte.of_N (Z.to_N (z mod 256))) as [b |] eqn:Hb.
  - apply Byte.to_of_N in Hb. rewrite Hb. lia.
  - apply Byte.of_N_None_iff in Hb. lia.
Qed.

Lemma byte_of_Z_eq (z : Z) (b : byte) : z mod 256 = u8 b -> byte_of_Z z = b.
Proof.
  intros Hz. unfold byte_of_Z. rewrite Hz. unfold u8.
  rewrite N2Z.id, Byte.of_to_N. reflexivity.
Qed.

(** The shared byte of the response: humidity's low nibble above
    temperature's high nibble. *)
Lemma shared_byte_arith (h t : Z) :
  0 <= t < 2 ^ 20 ->
  Z.lor (Z.shiftl (Z.land h 0x0F) 4) (Z.shiftr t 16)
  = h mod 2 ^ 4 * 2 ^ 4 + t / 2 ^ 16.
Proof.
  intros Ht.
  change 0x0F with (Z.ones 4). rewrite Z.land_ones by lia.
  rewrite Z.shiftr_div_pow2 by lia.
  apply lor_shiftl_add; [lia |].
  split; [apply Z.div_pos; lia | apply Z.div_lt_upper_bound; lia].
Qed.

(** X4: the extraction undoes the device's packing: from the response that
    carries a 20-bit humidity [h] and a 20-bit temperature [t] the converter
    extracts exactly [h] and [t], under any status byte, so no bit of either
    field is lost or mixed into the other. *)
Theorem extraction_inverts_response (st : byte) (h t : Z) :
  0 <= h < 2 ^ 20 -> 0 <= t < 2 ^ 20 ->
  humidData_of (response st h t) = h
  /\ tempData_of (response st h t) = t
  /\ response st h t !!! 0%nat = st.
Proof.
  intros Hh Ht.
  rewrite humidData_of_arith, tempData_of_arith.
  unfold response. cbn [lookup_total list_lookup_total].
  rewrite !u8_byte_of_Z, shared_byte_arith by assumption.
  rewrite !Z.shiftr_div_pow2 by lia.
  split; [| split]; [| | reflexivity]; Z.div_mod_to_equations; lia.
Qed.

Lemma extraction_inverts_response_witness :
  0 <= 0x19999 < 2 ^ 20 /\ 0 <= 0xA6666 < 2 ^ 20
  /\ humidData_of (response x19 0x19999 0xA6666) = 0x19999
  /\ tempData_of (response x19 0x19999 0xA6666) = 0xA6666
  /\ response x19 0x19999 0xA6666 !!! 0%nat = x19.
Proof.
  split; [lia |]. split; [lia |].
  apply (extraction_inverts_response x19 0x19999 0xA6666); lia.
Defined.

(** X5: the two fields and the status determine the measurement: packing
    what was extracted gives the six bytes back. *)
Theorem response_of_extraction (b0 b1 b2 b3 b4 b5 : byte) :
  let raw := [b0; b1; b2; b3; b4; b5] in
  response b0 (humidData_of raw) (tempData_of raw) = raw.
Proof.
  intros raw.
  pose proof (humidData_of_arith raw) as Hh.
  pose proof (tempData_of_arith raw) as Ht.
  pose proof (tempData_of_range raw) as Htr.
  subst raw. cbn [lookup_total list_lookup_total] in *.
  pose proof (u8_range b1). pose proof (u8_range b2).
  pose proof (u8_range b3). pose proof (u8_range b4).
  pose proof (u8_range b5).
  unfold response.
  rewrite shared_byte_arith by assumption.
  rewrite !Z.shiftr_div_pow2 by lia.
  rewrite Hh, Ht.
  f_equal.
  do 4 (f_equal; [apply byte_of_Z_eq; Z.div_mod_to_equations; lia |]).
  f_equal. apply byte_of_Z_eq. Z.div_mod_to_equations. lia.
Qed.

(** X6: the temperature scaling keeps the order of the raw values and never
    skips a hundredth of a degree: one raw step raises [temp100] by 0 or 1. *)
Theorem temp100_monotone (t t' : Z) :
  0 <= t -> t <= t' -> t' < 2 ^ 20 ->
  temp100_of t <= temp100_of t'
  /\ (t + 1 < 2 ^ 20 -> 0 <= temp100_of (t + 1) - temp100_of t <= 1).
Proof.
  intros H0 Hle Hmax.
  rewrite !temp100_of_small by lia.
  split.
  - apply Z.sub_le_mono_r, Z.div_le_mono; lia.
  - intros Hnext. rewrite temp100_of_small by lia.
    Z.div_mod_to_equations. lia.
Qed.

Lemma temp100_monotone_witness :
  0 <= 681574 /\ 681574 <= 681600 /\ 681600 < 2 ^ 20
  /\ temp100_of 681574 <= temp100_of 681600
  /\ (681574 + 1 < 2 ^ 20 ->
      0 <= temp100_of (681574 + 1) - temp100_of 681574 <= 1).
Proof.
  split; [lia |]. split; [lia |]. split; [lia |].
  apply (temp100_monotone 681574 681600); lia.
Defined.

(** X7: every hundredth of a degree from -50.00 to 149.99 is the output for
    some 20-bit raw temperature. *)
Theorem temp100_reaches (c : Z) :
  -5000 <= c <= 14999 ->
  exists t : Z, 0 <= t < 2 ^ 20 /\ temp100_of t = c.
Proof.
  intros Hc.
  exists (((c + 5000) * 32768 + 624) / 625).
  assert (Ht : 0 <= ((c + 5000) * 32768 + 624) / 625 < 2 ^ 20).
  { split; [apply Z.div_pos; lia | apply Z.div_lt_upper_bound; lia]. }
  split; [exact Ht |].
  rewrite temp100_of_small by exact Ht.
  Z.div_mod_to_equations. lia.
Qed.

Lemma temp100_reaches_witness :
  -5000 <= 2753 <= 14999
  /\ exists t : Z, 0 <= t < 2 ^ 20 /\ temp100_of t = 2753.
Proof.
  split; [lia | apply (temp100_reaches 2753); lia].
Defined.

(** X8: the humidity scaling keeps the order of the raw values, changes by
    at most one percent per raw step, and each percentage from 0 to 99 is the
    output for exactly the raw values [10486 * q] to [10486 * q + 10485] that
    fit in 20 bits. *)
Theorem humid100_bands (h q : Z) :
  0 <= h < 2 ^ 20 -> 0 <= q <= 99 ->
  (humid100_of h = q <-> 10486 * q <= h <= 10486 * q + 10485)
  /\ humid100_of (10486 * q) = q
  /\ (forall h' : Z, h <= h' < 2 ^ 20 -> humid100_of h <= humid100_of h')
  /\ (h + 1 < 2 ^ 20 -> 0 <= humid100_of (h + 1) - humid100_of h <= 1).
Proof.
  intros Hh Hq.
  destruct (humid100_of_small h Hh) as [-> _].
  destruct (humid100_of_small (10486 * q) ltac:(lia)) as [-> _].
  split; [| split; [| split]].
  - split; intros H; Z.div_mod_to_equations; lia.
  - Z.div_mod_to_equations. lia.
  - intros h' Hh'.
    destruct (humid100_of_small h' ltac:(lia)) as [-> _].
    apply Z.div_le_mono; lia.
  - intros Hnext.
    destruct (humid100_of_small (h + 1) ltac:(lia)) as [-> _].
    Z.div_mod_to_equations. lia.
Qed.

Lemma humid100_bands_witness :
  0 <= 104857 < 2 ^ 20 /\ 0 <= 9 <= 99
  /\ (humid100_of 104857 = 9 <-> 10486 * 9 <= 104857 <= 10486 * 9 + 10485)
  /\ humid100_of (10486 * 9) = 9
  /\ (forall h' : Z,
        104857 <= h' < 2 ^ 20 -> humid100_of 104857 <= humid100_of h')
  /\ (104857 + 1 < 2 ^ 20 ->
      0 <= humid100_of (104857 + 1) - humid100_of 104857 <= 1).
Proof.
  split; [lia |]. split; [lia |].
  apply (humid100_bands 104857 9); lia.
Defined.

(** ** Further properties of the formatter *)

(** X9: for every [int16_t] input except -32768 the string is the sign of
    the input, the decimal digits of a whole part [w], a point and one digit
    [d], where [w.d] is the magnitude of the input rounded half up to tenths:
    [10 * w + d = (|realV| + 5) / 10]. *)
Theorem i100toa_rounds_half_up (realV : Z) :
  -32767 <= realV <= 32767 ->
  exists w d : Z,
    0 <= w /\ 0 <= d <= 9
    /\ w * 10 + d = (Z.abs realV + 5) / 10
    /\ i100toa realV
       = ((if (realV <? 0)%Z then "-" else "")
            ++ utoa w ++ "." ++ String (digit_char d) EmptyString)%string
    /\ i100toa realV = format_tenths realV.
Proof.
  intros Hv.
  assert (Hrange : - 2 ^ 15 < realV < 2 ^ 15) by lia.
  destruct (i100toa_shape realV Hrange) as (w & d & _ & Hw & Hd & Hval & Hstr).
  exists w, d.
  split; [lia |]. split; [exact Hd |]. split; [exact Hval |].
  split; [exact Hstr | now apply i100toa_format].
Qed.

Lemma i100toa_rounds_half_up_witness :
  -32767 <= 1996 <= 32767
  /\ exists w d : Z,
       0 <= w /\ 0 <= d <= 9
       /\ w * 10 + d = (Z.abs 1996 + 5) / 10
       /\ i100toa 1996
          = ((if (1996 <? 0)%Z then "-" else "")
               ++ utoa w ++ "." ++ String (digit_char d) EmptyString)%string
       /\ i100toa 1996 = format_tenths 1996.
Proof.
  split; [lia | apply (i100toa_rounds_half_up 1996); lia].
Defined.

(** X10: for every [int16_t] input except -32768 the string reads back as a
    number of tenths that is within five hundredths of the input, and is the
    input exactly when the input has no hundredths. *)
Theorem i100toa_reads_back (realV : Z) :
  -32767 <= realV <= 32767 ->
  exists t : Z,
    parse_tenths (i100toa realV) = Some t
    /\ Z.abs (t * 10 - realV) <= 5
    /\ (realV mod 10 = 0 -> t * 10 = realV).
Proof.
  intros Hv.
  exists (Z.sgn realV * ((Z.abs realV + 5) / 10)).
  split; [apply parse_i100toa; lia |].
  destruct (Z.sgn_spec realV) as [[Hs ->] | [[Hs ->] | [Hs ->]]];
    (split; [| intros Hmod]); Z.div_mod_to_equations; lia.
Qed.

Lemma i100toa_reads_back_witness :
  -32767 <= -32767 <= 32767
  /\ exists t : Z,
       parse_tenths (i100toa (-32767)) = Some t
       /\ Z.abs (t * 10 - -32767) <= 5
       /\ (-32767 mod 10 = 0 -> t * 10 = -32767).
Proof.
  split; [lia | apply (i100toa_reads_back (-32767)); lia].
Defined.

(** X11: rounding is symmetric about zero: the string of a negative input
    is ["-"] followed by the string of its magnitude. *)
Theorem i100toa_sign_symmetric (realV : Z) :
  0 < realV <= 32767 ->
  i100toa (- realV) = String "-" (i100toa realV).
Proof.
  intros Hv.
  rewrite !i100toa_format by lia. unfold format_tenths.
  assert (Hround : round_tenths (- realV) = round_tenths realV)
    by (unfold round_tenths; now rewrite Z.abs_opp).
  rewrite Hround. destruct (round_tenths realV) as [w d].
  destruct (Z.ltb_spec (- realV) 0); [| lia].
  destruct (Z.ltb_spec realV 0); [lia | reflexivity].
Qed.

Lemma i100toa_sign_symmetric_witness :
  0 < 235 <= 32767 /\ i100toa (- 235) = String "-" (i100toa 235).
Proof.
  split; [lia | apply (i100toa_sign_symmetric 235); lia].
Defined.

(** X12: formatting keeps the order: of two inputs the smaller never reads
    back as the larger number. *)
Theorem i100toa_order (v v' : Z) :
  -32767 <= v -> v <= v' -> v' <= 32767 ->
  exists t t' : Z,
    parse_tenths (i100toa v) = Some t
    /\ parse_tenths (i100toa v') = Some t'
    /\ t <= t'.
Proof.
  intros Hlo Hle Hhi.
  exists (Z.sgn v * ((Z.abs v + 5) / 10)), (Z.sgn v' * ((Z.abs v' + 5) / 10)).
  split; [apply parse_i100toa; lia |].
  split; [apply parse_i100toa; lia |].
  destruct (Z.sgn_spec v) as [[Hs ->] | [[Hs ->] | [Hs ->]]];
    destruct (Z.sgn_spec v') as [[Hs' ->] | [[Hs' ->] | [Hs' ->]]];
    Z.div_mod_to_equations; lia.
Qed.

Lemma i100toa_order_witness :
  -32767 <= -235 /\ -235 <= -234 /\ -234 <= 32767
  /\ exists t t' : Z,
       parse_tenths (i100toa (-235)) = Some t
       /\ parse_tenths (i100toa (-234)) = Some t'
       /\ t <= t'.
Proof.
  split; [lia |]. split; [lia |]. split; [lia |].
  apply (i100toa_order (-235) (-234)); lia.
Defined.

(** X13: the buffers are large enough for every [int16_t] input, -32768
    included: each of the two strings [itoa] writes into [tmpString[6]] takes
    at most five bytes with its terminator, and the result takes at most nine,
    within the sixteen of [myString] in [main]. *)
Theorem i100toa_buffers (realV : Z) :
  is_int16 realV ->
  (String.length (itoa (fst (i100toa_round realV))) + 1 <= 5)%nat
  /\ (String.length (itoa (snd (i100toa_round realV))) + 1 <= 5)%nat
  /\ (String.length (i100toa realV) + 1 <= 9)%nat.
Proof.
  intros Hv. unfold is_int16 in Hv.
  destruct (Z.eq_dec realV (-32768)) as [-> | Hne].
  { change (i100toa_round (-32768)) with (-327, -6).
    change (i100toa (-32768)) with "--327.-6"%string.
    cbn [fst snd].
    change (itoa (-327)) with "-327"%string.
    change (itoa (-6)) with "-6"%string.
    cbn [String.length]. lia. }
  assert (Hrange : - 2 ^ 15 < realV < 2 ^ 15) by lia.
  destruct (i100toa_shape realV Hrange) as (w & d & Hround & Hw & Hd & _ & ->).
  rewrite i100toa_round_spec, Hround by assumption. cbn [fst snd].
  rewrite !itoa_nonneg by lia.
  assert (Hlw : (1 <= String.length (utoa w) <= 3)%nat).
  { apply utoa_length; [change (10 ^ Z.of_nat 3) with 1000 |]; lia. }
  assert (Hld : (1 <= String.length (utoa d) <= 1)%nat).
  { apply utoa_length; [change (10 ^ Z.of_nat 1) with 10 |]; lia. }
  rewrite !append_length. cbn [String.length].
  destruct (realV <? 0); cbn [String.length]; lia.
Qed.

Lemma i100toa_buffers_witness :
  is_int16 (-32768)
  /\ (String.length (itoa (fst (i100toa_round (-32768)))) + 1 <= 5)%nat
  /\ (String.length (itoa (snd (i100toa_round (-32768)))) + 1 <= 5)%nat
  /\ (String.length (i100toa (-32768)) + 1 <= 9)%nat.
Proof.
  assert (H : is_int16 (-32768)) by (unfold is_int16; lia).
  split; [exact H | exact (i100toa_buffers (-32768) H)].
Defined.

Lemma i100toa_length_witness :
  - 2 ^ 15 < -32767 < 2 ^ 15
  /\ (4 <= String.length (i100toa (-32767)) + 1 <= 7)%nat.
Proof.
  split; [lia | apply (i100toa_length (-32767)); lia].
Defined.

(** ** From the sensor to the display *)

Lemma temp100_of_range (t : Z) :
  0 <= t < 2 ^ 20 -> -5000 <= temp100_of t <= 14999.
Proof.
  intros Ht. rewrite temp100_of_small by assumption.
  Z.div_mod_to_equations. lia.
Qed.

(** The string of a temperature the converter can produce: five characters
    at most. *)
Lemma i100toa_temperature_length (v : Z) :
  -5000 <= v <= 14999 -> (3 <= String.length (i100toa v) <= 5)%nat.
Proof.
  intros Hv.
  destruct (i100toa_shape v ltac:(lia)) as (w & d & _ & Hw & Hd & Hval & ->).
  rewrite !append_length. cbn [String.length].
  destruct (Z.ltb_spec v 0) as [Hneg | Hpos]; cbn [String.length].
  - assert (Hlw : (1 <= String.length (utoa w) <= 2)%nat).
    { apply utoa_length; [change (10 ^ Z.of_nat 2) with 100 |]; [| lia].
      Z.div_mod_to_equations. lia. }
    lia.
  - assert (Hlw : (1 <= String.length (utoa w) <= 3)%nat).
    { apply utoa_length; [change (10 ^ Z.of_nat 3) with 1000 |]; [| lia].
      Z.div_mod_to_equations. lia. }
    lia.
Qed.

(** X15: whatever the device delivers, the temperature the converter stores
    is formatted correctly (the input -32768 on which [i100toa] fails cannot
    arise) and the text [main] sends to the first display line, the number, a
    space, the degree sign and ["C"], fits the eight columns. *)
Theorem temperature_line_fits (w : world) :
  let t := temp100 (fst (AHT10_getTempHumid100 w)) in
  i100toa t = format_tenths t
  /\ (String.length (i100toa t) <= 5)%nat
  /\ (String.length (temperature_line t) <= LCD_COLUMNS)%nat.
Proof.
  intros t. subst t. rewrite getTempHumid100_run. cbn [fst temp100].
  pose proof (temp100_of_range _ (tempData_of_range (raw_of w))) as Ht.
  pose proof (i100toa_temperature_length _ Ht) as Hlen.
  split; [apply i100toa_format; lia |].
  split; [lia |].
  unfold temperature_line, LCD_COLUMNS.
  rewrite append_length. cbn [String.length append]. lia.
Qed.

(** X16: whatever the device delivers, the humidity [main] prints with
    [itoa] is one or two digits without a sign, and the text sent to the
    second display line, the number and [" % RH "], fits the eight columns. *)
Theorem humidity_line_fits (w : world) :
  let h := humid100 (fst (AHT10_getTempHumid100 w)) in
  itoa h = utoa h
  /\ (1 <= String.length (itoa h) <= 2)%nat
  /\ (String.length (humidity_line h) <= LCD_COLUMNS)%nat.
Proof.
  intros h. subst h. rewrite getTempHumid100_run. cbn [fst humid100].
  destruct (humid100_of_small _ (humidData_of_range (raw_of w))) as [Heq Hq].
  rewrite Heq.
  assert (Hlen : (1 <= String.length (utoa (humidData_of (raw_of w) / 10486))
                  <= 2)%nat).
  { apply utoa_length; [change (10 ^ Z.of_nat 2) with 100 |]; lia. }
  rewrite itoa_nonneg by lia.
  split; [reflexivity |]. split; [exact Hlen |].
  unfold humidity_line, LCD_COLUMNS.
  rewrite itoa_nonneg, append_length by lia. cbn [String.length]. lia.
Qed.

(** X17: every label of [outFuzzyHeatIndex] is exactly eight characters, a
    full display line, and the labels follow the temperature: ["freezing"]
    below 1, [" nice!  "] from 18 to 26, ["too hot!"] from 35 on. *)
Theorem outFuzzyHeatIndex_labels (temp : Z) :
  String.length (outFuzzyHeatIndex temp) = LCD_COLUMNS
  /\ (outFuzzyHeatIndex temp = "freezing"%string <-> temp < 1)
  /\ (outFuzzyHeatIndex temp = "too cold"%string <-> 1 <= temp < 11)
  /\ (outFuzzyHeatIndex temp = " cold   "%string <-> 11 <= temp < 18)
  /\ (outFuzzyHeatIndex temp = " nice!  "%string <-> 18 <= temp < 27)
  /\ (outFuzzyHeatIndex temp = "  warm  "%string <-> 27 <= temp < 30)
  /\ (outFuzzyHeatIndex temp = "  hot   "%string <-> 30 <= temp < 35)
  /\ (outFuzzyHeatIndex temp = "too hot!"%string <-> 35 <= temp).
Proof.
  unfold outFuzzyHeatIndex.
  destruct (Z.ltb_spec temp 1); [| destruct (Z.ltb_spec temp 11);
    [| destruct (Z.ltb_spec temp 18); [| destruct (Z.ltb_spec temp 27);
      [| destruct (Z.ltb_spec temp 30); [| destruct (Z.ltb_spec temp 35)]]]]];
    (split; [reflexivity |]);
    repeat split; intros; first [lia | discriminate | reflexivity].
Qed.

(** X18: a read does not depend on what the caller's array held: on two
    arrays of six cells, whatever their contents, [AHT10_readSensorData]
    returns the same six bytes and leaves the same state.  The local array of
    [AHT10_getTempHumid100], which is not initialised, is therefore never read
    before it is written. *)
Theorem readSensorData_ignores_array (data1 data2 : list byte) (w : world) :
  List.length data1 = 6%nat -> List.length data2 = 6%nat ->
  AHT10_readSensorData data1 w = AHT10_readSensorData data2 w
  /\ fst (AHT10_readSensorData data1 w) = raw_of w.
Proof.
  intros H1 H2. rewrite !readSensorData_run. cbn [fst].
  do 6 (destruct data1 as [| ? data1]; [discriminate H1 |]).
  destruct data1; [| discriminate H1].
  do 6 (destruct data2 as [| ? data2]; [discriminate H2 |]).
  destruct data2; [| discriminate H2].
  split; reflexivity.
Qed.

Lemma readSensorData_ignores_array_witness :
  List.length (replicate 6 x00) = 6%nat
  /\ List.length (replicate 6 xff) = 6%nat
  /\ AHT10_readSensorData (replicate 6 x00) world_idle
     = AHT10_readSensorData (replicate 6 xff) world_idle
  /\ fst (AHT10_readSensorData (replicate 6 x00) world_idle)
     = raw_of world_idle.
Proof.
  split; [reflexivity |]. split; [reflexivity |].
  apply (readSensorData_ignores_array (replicate 6 x00) (replicate 6 xff)
           world_idle); reflexivity.
Defined.
